(** * c11threads-tiny: the C11 threads veneer over POSIX threads

    A shallow embedding of [ext/c11threads/c11threads-tiny.h].  The header is
    a set of [static inline] wrappers, each forwarding to one primitive of the
    native threading facility ([pthread_*], [sched_yield]) and translating its
    result.  The native facility is not part of the header, so the wrappers
    are embedded over an arbitrary implementation of it (the class [Pthread]);
    a reference implementation ([Posix]) follows the POSIX descriptions of the
    primitives and is used where a property needs the facility's behaviour. *)

From stdpp Require Import base gmap list.
From Stdlib Require Import ZArith Lia.

Local Open Scope Z_scope.

(** ** Data model *)

(** What the header takes from the platform: the widths of [long] and of
    [void*], and the two [errno.h] constants it compares against. *)
Class Platform := {
  long_bits : Z;
  ptr_bits : Z;
  EDEADLK : Z;
  EBUSY : Z
}.

(** [int] is 32 bits wide on every POSIX platform. *)
Definition int_bits : Z := 32.

Definition wrap_signed (bits z : Z) : Z :=
  (z + 2 ^ (bits - 1)) mod 2 ^ bits - 2 ^ (bits - 1).

Definition wrap_unsigned (bits z : Z) : Z := z mod 2 ^ bits.

(** The values of type [int]. *)
Definition in_int (z : Z) : Prop := - 2 ^ 31 <= z < 2 ^ 31.

(** The three conversions of [thrd_exit] and [thrd_join]:
    [(long)res], [(void* )l] and [(int)retval].  A pointer is the unsigned
    number of its address; [NULL] is [0]. *)
Definition long_of_int `{Platform} (i : Z) : Z := wrap_signed long_bits i.
Definition ptr_of_long `{Platform} (l : Z) : Z := wrap_unsigned ptr_bits l.
Definition int_of_ptr (p : Z) : Z := wrap_signed int_bits p.

Definition NULL : Z := 0.

(** [enum { mtx_plain = 0, mtx_recursive = 1, mtx_timed = 2, mtx_try = 4 }] *)
Definition mtx_plain : Z := 0.
Definition mtx_recursive : Z := 1.
Definition mtx_timed : Z := 2.
Definition mtx_try : Z := 4.

(** [enum { thrd_success, thrd_busy, thrd_error, thrd_nomem }] *)
Definition thrd_success : Z := 0.
Definition thrd_busy : Z := 1.
Definition thrd_error : Z := 2.
Definition thrd_nomem : Z := 3.

(** The closed set of status values. *)
Definition is_status (z : Z) : Prop :=
  z = thrd_success ∨ z = thrd_busy ∨ z = thrd_error ∨ z = thrd_nomem.

(** ** Effects

    A call runs on a thread and acts on the world: the caller's memory (one
    scalar object per address) and the state [S] of the native facility.  A
    call returns a value, or terminates the calling thread ([Exits]), or
    cannot complete in this world ([Blocks]), or faults by writing through a
    null pointer ([Faults]). *)

Record world (S : Type) := World { mem : gmap Z Z; sys : S }.
Arguments World {S} _ _.
Arguments mem {S} _.
Arguments sys {S} _.

Inductive outcome (S A : Type) : Type :=
| Returns (a : A) (w : world S)
| Exits (w : world S)
| Blocks
| Faults.
Arguments Returns {S A} _ _.
Arguments Exits {S A} _.
Arguments Blocks {S A}.
Arguments Faults {S A}.

(** A computation, given the calling thread and the world. *)
Definition M (S A : Type) : Type := Z → world S → outcome S A.

Global Instance M_ret {S} : MRet (M S) := λ A a _ w, Returns a w.

Global Instance M_bind {S} : MBind (M S) := λ A B f m self w,
  match m self w with
  | Returns a w' => f a self w'
  | Exits w' => Exits w'
  | Blocks => Blocks
  | Faults => Faults
  end.

Global Instance M_fmap {S} : FMap (M S) := λ A B f m, a ← m; mret (f a).

(** The world a call leaves behind when it completes, by returning or by
    terminating its thread. *)
Definition after {S A} (r : outcome S A) : option (world S) :=
  match r with
  | Returns _ w | Exits w => Some w
  | Blocks | Faults => None
  end.

(** How a call ends, the value and the world apart. *)
Inductive ending : Type := Returned | Exited | Blocked | Faulted.

Definition ending_of {S A} (r : outcome S A) : ending :=
  match r with
  | Returns _ _ => Returned
  | Exits _ => Exited
  | Blocks => Blocked
  | Faults => Faulted
  end.

(** What a status [s] tells about the native result code [rc]: for the
    functions that only test for zero, and for the two that first compare
    with an [errno] value [code]. *)
Definition zero_reading (s rc : Z) : Prop :=
  (s = thrd_success ∧ rc = 0) ∨ (s = thrd_error ∧ rc ≠ 0).

Definition busy_reading (code s rc : Z) : Prop :=
  (s = thrd_busy ∧ rc = code) ∨ (rc ≠ code ∧ zero_reading s rc).

(** [*a = v] *)
Definition store {S} (a v : Z) : M S unit := λ _ w,
  if a =? NULL then Faults else Returns tt (World (<[a:=v]> (mem w)) (sys w)).

(** ** The native facility

    One field per primitive the header calls, with the arguments in the
    order of the C prototype.  An out-parameter that points to a local of
    the wrapper ([&retval] in [thrd_join]) is returned beside the result
    code; [pthread_exit] returns nothing, so its value type is empty. *)
Class Pthread (S : Type) := {
  pthread_create : Z → Z → Z → Z → M S Z;
  pthread_exit : Z → M S Empty_set;
  pthread_join : Z → M S (Z * Z);
  pthread_detach : Z → M S Z;
  pthread_self : M S Z;
  pthread_equal : Z → Z → M S Z;
  sched_yield : M S Z;
  pthread_mutex_init : Z → Z → M S Z;
  pthread_mutex_destroy : Z → M S Z;
  pthread_mutex_lock : Z → M S Z;
  pthread_mutex_trylock : Z → M S Z;
  pthread_mutex_unlock : Z → M S Z;
  pthread_cond_init : Z → Z → M S Z;
  pthread_cond_destroy : Z → M S Z;
  pthread_cond_signal : Z → M S Z;
  pthread_cond_broadcast : Z → M S Z;
  pthread_cond_wait : Z → Z → M S Z;
  pthread_key_create : Z → Z → M S Z;
  pthread_key_delete : Z → M S Z;
  pthread_setspecific : Z → Z → M S Z;
  pthread_getspecific : Z → M S Z;
  pthread_once : Z → Z → M S Z
}.

(** ** The wrappers of the header *)

Section Wrappers.
Context `{Platform} {S : Type} `{Pthread S}.

(** *** thread management *)

Definition thrd_create (thr func arg : Z) : M S Z :=
  rc ← pthread_create thr 0 func arg;
  mret (if rc =? 0 then thrd_success else thrd_error).

Definition thrd_exit (res : Z) : M S unit :=
  e ← pthread_exit (ptr_of_long (long_of_int res));
  match e : Empty_set with end.

Definition thrd_join (thr res : Z) : M S Z :=
  '(rc, retval) ← pthread_join thr;
  if negb (rc =? 0) then mret thrd_error
  else
    (if negb (res =? NULL) then store res (int_of_ptr retval) else mret tt);;
    mret thrd_success.

Definition thrd_detatch (thr : Z) : M S Z :=
  rc ← pthread_detach thr;
  mret (if rc =? 0 then thrd_success else thrd_error).

Definition thrd_current : M S Z := pthread_self.

Definition thrd_equal (a b : Z) : M S Z := pthread_equal a b.

Definition thrd_yield : M S unit := sched_yield;; mret tt.

(** *** mutexes *)

Definition mtx_init (mtx type : Z) : M S Z :=
  rc ← pthread_mutex_init mtx NULL;
  mret (if rc =? 0 then thrd_success else thrd_error).

Definition mtx_destroy (mtx : Z) : M S unit :=
  pthread_mutex_destroy mtx;; mret tt.

Definition mtx_lock (mtx : Z) : M S Z :=
  res ← pthread_mutex_lock mtx;
  if res =? EDEADLK then mret thrd_busy
  else mret (if res =? 0 then thrd_success else thrd_error).

Definition mtx_trylock (mtx : Z) : M S Z :=
  res ← pthread_mutex_trylock mtx;
  if res =? EBUSY then mret thrd_busy
  else mret (if res =? 0 then thrd_success else thrd_error).

Definition mtx_unlock (mtx : Z) : M S Z :=
  rc ← pthread_mutex_unlock mtx;
  mret (if rc =? 0 then thrd_success else thrd_error).

(** *** condition variables *)

Definition cnd_init (cond : Z) : M S Z :=
  rc ← pthread_cond_init cond 0;
  mret (if rc =? 0 then thrd_success else thrd_error).

Definition cnd_destroy (cond : Z) : M S unit :=
  pthread_cond_destroy cond;; mret tt.

Definition cnd_signal (cond : Z) : M S Z :=
  rc ← pthread_cond_signal cond;
  mret (if rc =? 0 then thrd_success else thrd_error).

Definition cnd_broadcast (cond : Z) : M S Z :=
  rc ← pthread_cond_broadcast cond;
  mret (if rc =? 0 then thrd_success else thrd_error).

Definition cnd_wait (cond mtx : Z) : M S Z :=
  rc ← pthread_cond_wait cond mtx;
  mret (if rc =? 0 then thrd_success else thrd_error).

(** *** thread-specific data *)

Definition tss_create (key dtor : Z) : M S Z :=
  rc ← pthread_key_create key dtor;
  mret (if rc =? 0 then thrd_success else thrd_error).

Definition tss_delete (key : Z) : M S unit :=
  pthread_key_delete key;; mret tt.

Definition tss_set (key val : Z) : M S Z :=
  rc ← pthread_setspecific key val;
  mret (if rc =? 0 then thrd_success else thrd_error).

Definition tss_get (key : Z) : M S Z := pthread_getspecific key.

(** *** misc *)

Definition call_once (flag func : Z) : M S unit :=
  pthread_once flag func;; mret tt.

(** *** the interface as a whole

    One constructor per function of the header, and what a call hands
    back to its caller: an [int], a [void*], a [thrd_t], or nothing for
    the functions declared [void]. *)

Inductive op : Type :=
| ThrdCreate (thr func arg : Z)
| ThrdExit (res : Z)
| ThrdJoin (thr res : Z)
| ThrdDetatch (thr : Z)
| ThrdCurrent
| ThrdEqual (a b : Z)
| ThrdYield
| MtxInit (mtx type : Z)
| MtxDestroy (mtx : Z)
| MtxLock (mtx : Z)
| MtxTrylock (mtx : Z)
| MtxUnlock (mtx : Z)
| CndInit (cond : Z)
| CndDestroy (cond : Z)
| CndSignal (cond : Z)
| CndBroadcast (cond : Z)
| CndWait (cond mtx : Z)
| TssCreate (key dtor : Z)
| TssDelete (key : Z)
| TssSet (key val : Z)
| TssGet (key : Z)
| CallOnce (flag func : Z).

Inductive retval : Type :=
| RInt (z : Z)
| RPtr (p : Z)
| RThrd (t : Z)
| RVoid.

Definition void (_ : unit) : retval := RVoid.

Definition exec (o : op) : M S retval :=
  match o with
  | ThrdCreate thr func arg => RInt <$> thrd_create thr func arg
  | ThrdExit res => void <$> thrd_exit res
  | ThrdJoin thr res => RInt <$> thrd_join thr res
  | ThrdDetatch thr => RInt <$> thrd_detatch thr
  | ThrdCurrent => RThrd <$> thrd_current
  | ThrdEqual a b => RInt <$> thrd_equal a b
  | ThrdYield => void <$> thrd_yield
  | MtxInit mtx type => RInt <$> mtx_init mtx type
  | MtxDestroy mtx => void <$> mtx_destroy mtx
  | MtxLock mtx => RInt <$> mtx_lock mtx
  | MtxTrylock mtx => RInt <$> mtx_trylock mtx
  | MtxUnlock mtx => RInt <$> mtx_unlock mtx
  | CndInit cond => RInt <$> cnd_init cond
  | CndDestroy cond => void <$> cnd_destroy cond
  | CndSignal cond => RInt <$> cnd_signal cond
  | CndBroadcast cond => RInt <$> cnd_broadcast cond
  | CndWait cond mtx => RInt <$> cnd_wait cond mtx
  | TssCreate key dtor => RInt <$> tss_create key dtor
  | TssDelete key => void <$> tss_delete key
  | TssSet key val => RInt <$> tss_set key val
  | TssGet key => RPtr <$> tss_get key
  | CallOnce flag func => void <$> call_once flag func
  end.


(** The functions the header declares with an [int] status as result. *)
Definition returns_status (o : op) : bool :=
  match o with
  | ThrdCreate _ _ _ | ThrdJoin _ _ | ThrdDetatch _
  | MtxInit _ _ | MtxLock _ | MtxTrylock _ | MtxUnlock _
  | CndInit _ | CndSignal _ | CndBroadcast _ | CndWait _ _
  | TssCreate _ _ | TssSet _ _ => true
  | _ => false
  end.

(** The functions the header declares [void]. *)
Definition returns_nothing (o : op) : bool :=
  match o with
  | ThrdExit _ | ThrdYield | MtxDestroy _ | CndDestroy _ | TssDelete _
  | CallOnce _ _ => true
  | _ => false
  end.

End Wrappers.

(** ** A reference implementation of the native facility *)

(** Modelled from the spec: the native threading facility (POSIX threads),
    the header's leaf dependency, is no part of the repository.  The
    primitives are modelled as the specification describes the operations
    built on them and as POSIX describes the primitives themselves, over an
    explicit state, with calls taken one at a time (each call that
    completes is one atomic step).  Resource exhaustion comes from a finite
    allocation budget.  Where POSIX leaves a behaviour undefined the model
    picks one and says so. *)
Module Posix.

(** [errno.h] values the header does not name (their Linux numbers). *)
Definition EPERM : Z := 1.
Definition ESRCH : Z := 3.
Definition EAGAIN : Z := 11.
Definition ENOMEM : Z := 12.
Definition EINVAL : Z := 22.

Definition PTHREAD_KEYS_MAX : nat := 1024.

(** A thread is running, joinable or detached, or it has terminated and
    keeps its exit value until it is joined.  A detached thread that
    terminates, and a thread that has been joined, leave the table. *)
Inductive thread : Type :=
| Running (detached : bool)
| Zombie (retval : Z).

(** A thread-specific data key: its destructor and one value per thread
    (no entry reads as [NULL]). *)
Record slot := Slot { dtor : Z; values : gmap Z Z }.

Record state := State {
  threads : gmap Z thread;
  mutexes : gmap Z (option Z);     (* address ↦ owner, if locked *)
  conds : gset Z;
  slots : gmap Z slot;
  blocks : gset (Z * Z);           (* (thread, key / 32): allocated blocks *)
  onces : gset Z;                  (* once-flags whose routine has run *)
  calls : list (Z * Z);            (* routines started: function, argument *)
  heap : nat;                      (* allocations that will still succeed *)
  errorcheck : bool                (* default mutexes detect a relock *)
}.

Definition with_threads (f : gmap Z thread → gmap Z thread) (s : state) : state :=
  State (f (threads s)) (mutexes s) (conds s) (slots s) (blocks s) (onces s)
        (calls s) (heap s) (errorcheck s).

Definition with_mutexes (f : gmap Z (option Z) → gmap Z (option Z)) (s : state) : state :=
  State (threads s) (f (mutexes s)) (conds s) (slots s) (blocks s) (onces s)
        (calls s) (heap s) (errorcheck s).

Definition with_conds (f : gset Z → gset Z) (s : state) : state :=
  State (threads s) (mutexes s) (f (conds s)) (slots s) (blocks s) (onces s)
        (calls s) (heap s) (errorcheck s).

Definition with_slots (f : gmap Z slot → gmap Z slot) (s : state) : state :=
  State (threads s) (mutexes s) (conds s) (f (slots s)) (blocks s) (onces s)
        (calls s) (heap s) (errorcheck s).

Definition with_blocks (f : gset (Z * Z) → gset (Z * Z)) (s : state) : state :=
  State (threads s) (mutexes s) (conds s) (slots s) (f (blocks s)) (onces s)
        (calls s) (heap s) (errorcheck s).

Definition with_onces (f : gset Z → gset Z) (s : state) : state :=
  State (threads s) (mutexes s) (conds s) (slots s) (blocks s)
        (f (onces s)) (calls s) (heap s) (errorcheck s).

Definition with_heap (n : nat) (s : state) : state :=
  State (threads s) (mutexes s) (conds s) (slots s) (blocks s) (onces s)
        (calls s) n (errorcheck s).

Definition invoke (cs : list (Z * Z)) (s : state) : state :=
  State (threads s) (mutexes s) (conds s) (slots s) (blocks s) (onces s)
        (calls s ++ cs) (heap s) (errorcheck s).

(** A primitive that only acts on the facility's state. *)
Definition sysop {A} (f : Z → state → A * state) : M state A := λ self w,
  let '(a, s) := f self (sys w) in Returns a (World (mem w) s).

Section Primitives.
Context `{Platform}.

(** *** threads *)

Definition pthread_create (thr attr start arg : Z) : M state Z := λ _ w,
  let s := sys w in
  if negb (attr =? NULL) then Returns EINVAL w
  else match heap s with
       | O => Returns EAGAIN w
       | S n =>
           if thr =? NULL then Faults
           else
             let t := fresh (dom (threads s)) in
             Returns 0
               (World (<[thr := t]> (mem w))
                  (invoke [(start, arg)]
                     (with_heap n
                        (with_threads (insert t (Running false)) s))))
       end.

(** The destructors due when [self] terminates: one per key with a
    destructor and a non-null value for [self]. *)
Definition destructors (self : Z) (sl : gmap Z slot) : list (Z * Z) :=
  omap (λ '(_, k),
          match values k !! self with
          | Some v => if (v =? NULL) || (dtor k =? NULL) then None
                      else Some (dtor k, v)
          | None => None
          end)
       (map_to_list sl).

Definition forget (self : Z) (k : slot) : slot :=
  Slot (dtor k) (delete self (values k)).

Definition pthread_exit (value : Z) : M state Empty_set := λ self w,
  let s := sys w in
  Exits
    (World (mem w)
       (with_threads
          (λ ts, match ts !! self with
                 | Some (Running false) => <[self := Zombie value]> ts
                 | Some (Running true) => delete self ts
                 | _ => ts
                 end)
          (with_slots (fmap (forget self))
             (with_blocks (filter (λ b, b.1 ≠ self))
                (invoke (destructors self (slots s)) s))))).

(** Joining a running thread does not complete; joining oneself is the
    deadlock POSIX lets the primitive report.  On failure the out-parameter
    keeps the (here: zero) content it had. *)
Definition pthread_join (thr : Z) : M state (Z * Z) := λ self w,
  let s := sys w in
  if thr =? self then Returns (EDEADLK, 0) w
  else match threads s !! thr with
       | Some (Zombie v) =>
           Returns (0, v) (World (mem w) (with_threads (delete thr) s))
       | Some (Running false) => Blocks
       | Some (Running true) => Returns (EINVAL, 0) w
       | None => Returns (ESRCH, 0) w
       end.

Definition pthread_detach (thr : Z) : M state Z := sysop (λ _ s,
  match threads s !! thr with
  | Some (Running false) => (0, with_threads (insert thr (Running true)) s)
  | Some (Running true) => (EINVAL, s)
  | Some (Zombie _) => (0, with_threads (delete thr) s)
  | None => (ESRCH, s)
  end).

Definition pthread_self : M state Z := λ self w, Returns self w.

Definition pthread_equal (a b : Z) : M state Z :=
  mret (if a =? b then 1 else 0).

Definition sched_yield : M state Z := mret 0.

(** *** mutexes (attribute objects are not modelled: only [NULL]) *)

Definition pthread_mutex_init (mtx attr : Z) : M state Z := sysop (λ _ s,
  if negb (attr =? NULL) then (EINVAL, s)
  else (0, with_mutexes (insert mtx None) s)).

Definition pthread_mutex_destroy (mtx : Z) : M state Z := sysop (λ _ s,
  match mutexes s !! mtx with
  | Some None => (0, with_mutexes (delete mtx) s)
  | Some (Some _) => (EBUSY, s)
  | None => (EINVAL, s)
  end).

(** Locking a mutex another thread holds does not complete.  Relocking
    one's own default mutex is undefined in POSIX: the facility reports
    [EDEADLK] if it checks for it and hangs otherwise. *)
Definition pthread_mutex_lock (mtx : Z) : M state Z := λ self w,
  let s := sys w in
  match mutexes s !! mtx with
  | Some None =>
      Returns 0 (World (mem w) (with_mutexes (insert mtx (Some self)) s))
  | Some (Some owner) =>
      if (owner =? self) && errorcheck s then Returns EDEADLK w else Blocks
  | None => Returns EINVAL w
  end.

Definition pthread_mutex_trylock (mtx : Z) : M state Z := sysop (λ self s,
  match mutexes s !! mtx with
  | Some None => (0, with_mutexes (insert mtx (Some self)) s)
  | Some (Some _) => (EBUSY, s)
  | None => (EINVAL, s)
  end).

Definition pthread_mutex_unlock (mtx : Z) : M state Z := sysop (λ self s,
  match mutexes s !! mtx with
  | Some (Some owner) =>
      if owner =? self then (0, with_mutexes (insert mtx None) s)
      else (EPERM, s)
  | Some None => (EPERM, s)
  | None => (EINVAL, s)
  end).

(** *** condition variables

    With calls taken one at a time there is no waiter for a signal to act
    on; a wait by the owner of the mutex completes as a wake-up with the
    mutex held again, which POSIX allows at any time. *)

Definition pthread_cond_init (cond attr : Z) : M state Z := sysop (λ _ s,
  if negb (attr =? NULL) then (EINVAL, s)
  else (0, with_conds (union {[cond]}) s)).

Definition pthread_cond_destroy (cond : Z) : M state Z := sysop (λ _ s,
  if decide (cond ∈ conds s) then (0, with_conds (λ cs, cs ∖ {[cond]}) s)
  else (EINVAL, s)).

Definition pthread_cond_signal (cond : Z) : M state Z := sysop (λ _ s,
  if decide (cond ∈ conds s) then (0, s) else (EINVAL, s)).

Definition pthread_cond_broadcast (cond : Z) : M state Z := sysop (λ _ s,
  if decide (cond ∈ conds s) then (0, s) else (EINVAL, s)).

Definition pthread_cond_wait (cond mtx : Z) : M state Z := sysop (λ self s,
  if decide (cond ∈ conds s) then
    match mutexes s !! mtx with
    | Some (Some owner) => if owner =? self then (0, s) else (EPERM, s)
    | Some None => (EPERM, s)
    | None => (EINVAL, s)
    end
  else (EINVAL, s)).

(** *** thread-specific data *)

(** The key a creation takes: the lowest one not in use. *)
Definition next_key (sl : gmap Z slot) : Z :=
  default (fresh (dom sl))
    (find (λ k, match sl !! k with None => true | Some _ => false end)
       (seqZ 0 (Z.of_nat PTHREAD_KEYS_MAX))).

Definition pthread_key_create (key destructor : Z) : M state Z := λ _ w,
  let s := sys w in
  if (PTHREAD_KEYS_MAX <=? size (slots s))%nat then Returns EAGAIN w
  else if key =? NULL then Faults
  else
    let k := next_key (slots s) in
    Returns 0
      (World (<[key := k]> (mem w))
         (with_slots (insert k (Slot destructor ∅)) s)).

Definition pthread_key_delete (key : Z) : M state Z := sysop (λ _ s,
  match slots s !! key with
  | Some _ => (0, with_slots (delete key) s)
  | None => (EINVAL, s)
  end).

(** The values of the first [PTHREAD_KEY_2NDLEVEL_SIZE] keys live in the
    thread itself.  The values of the later keys live in blocks of that
    many keys, and a thread's block is allocated when the thread first
    stores a non-null value under one of its keys: only that store can
    fail for lack of memory. *)
Definition PTHREAD_KEY_2NDLEVEL_SIZE : Z := 32.

Definition pthread_setspecific (key value : Z) : M state Z := sysop (λ self s,
  match slots s !! key with
  | None => (EINVAL, s)
  | Some k =>
      let put :=
        with_slots (insert key (Slot (dtor k) (<[self := value]> (values k))))
      in
      let block := (self, key / PTHREAD_KEY_2NDLEVEL_SIZE) in
      if (key <? PTHREAD_KEY_2NDLEVEL_SIZE)
         || bool_decide (block ∈ blocks s)
         || (value =? NULL)
      then (0, put s)
      else match heap s with
           | O => (ENOMEM, s)
           | S n => (0, with_heap n (with_blocks (union {[block]}) (put s)))
           end
  end).

Definition pthread_getspecific (key : Z) : M state Z := λ self w,
  Returns (match slots (sys w) !! key with
           | Some k => default NULL (values k !! self)
           | None => NULL
           end) w.

(** *** once *)

Definition pthread_once (once_control init_routine : Z) : M state Z :=
  sysop (λ _ s,
    if decide (once_control ∈ onces s) then (0, s)
    else (0, invoke [(init_routine, NULL)]
               (with_onces (union {[once_control]}) s))).

Global Instance pthreads : Pthread state :=
  Build_Pthread state
    pthread_create pthread_exit pthread_join pthread_detach pthread_self
    pthread_equal sched_yield
    pthread_mutex_init pthread_mutex_destroy pthread_mutex_lock
    pthread_mutex_trylock pthread_mutex_unlock
    pthread_cond_init pthread_cond_destroy pthread_cond_signal
    pthread_cond_broadcast pthread_cond_wait
    pthread_key_create pthread_key_delete pthread_setspecific
    pthread_getspecific
    pthread_once.

(** *** runs

    The world at start-up: the initial thread alone, nothing created. *)
Definition boot (budget : nat) (check : bool) : world state :=
  World ∅ (State {[1 := Running false]} ∅ ∅ ∅ ∅ ∅ [] budget check).

Definition alive (w : world state) (t : Z) : bool :=
  match threads (sys w) !! t with
  | Some (Running _) => true
  | _ => false
  end.

Definition joinable (w : world state) (t : Z) : bool :=
  match threads (sys w) !! t with
  | Some (Running false) => true
  | _ => false
  end.

(** A run is a list of completed calls of the header's functions, each by a
    running thread, in the order in which they took effect. *)
Fixpoint run (tr : list (Z * op)) (w : world state) : option (world state) :=
  match tr with
  | [] => Some w
  | (t, o) :: tr' =>
      if alive w t then
        match after (exec o t w) with
        | Some w' => run tr' w'
        | None => None
        end
      else None
  end.

(** [o] consumes the thread handle [t]. *)
Definition consumes (t : Z) (o : op) : bool :=
  match o with
  | ThrdJoin thr _ | ThrdDetatch thr => thr =? t
  | _ => false
  end.

Definition unclaimed (t : Z) (tr : list (Z * op)) : bool :=
  forallb (λ e, negb (consumes t e.2)) tr.




End Primitives.
End Posix.

(** The platform of the examples: Linux, LP64. *)
Definition linux_lp64 : Platform :=
  {| long_bits := 64; ptr_bits := 64; EDEADLK := 35; EBUSY := 16 |}.

(** Worlds of the examples, on the reference implementation. *)
Module Scenario.

(** Thread 1 has created thread 2 by [thrd_create(100, 7, 8)]; the thread
    table is the given one. *)
Definition spawned (table : gmap Z Posix.thread) : world Posix.state :=
  World {[100 := 2]} (Posix.State table ∅ ∅ ∅ ∅ ∅ [(7, 8)] 0 false).

(** The same with both threads running, after [mtx_init(5, mtx_plain)]
    and a [mtx_lock(5)] by [owner]. *)
Definition held (owner : Z) (check : bool) : world Posix.state :=
  World {[100 := 2]}
    (Posix.State {[1 := Posix.Running false; 2 := Posix.Running false]}
       {[5 := Some owner]} ∅ ∅ ∅ ∅ [(7, 8)] 0 check).

(** Thread 1 alone, after [tss_create(300, 9)] has made key 0, with the
    given values for the key and allocation budget. *)
Definition keyed (vals : gmap Z Z) (budget : nat) : world Posix.state :=
  World {[300 := 0]}
    (Posix.State {[1 := Posix.Running false]} ∅ ∅
       {[0 := Posix.Slot 9 vals]} ∅ ∅ [] budget false).

(** Thread 1 alone, after [n] calls of [tss_create(300, 0)] have made the
    keys [0 .. n - 1], with no allocation left. *)
Definition crowded (n : nat) : world Posix.state :=
  World {[300 := Z.of_nat n - 1]}
    (Posix.State {[1 := Posix.Running false]} ∅ ∅
       (list_to_map ((λ k, (k, Posix.Slot 0 ∅)) <$> seqZ 0 (Z.of_nat n)))
       ∅ ∅ [] 0 false).

End Scenario.

(** * Properties *)

(** ** The conversions of the exit value *)

Lemma wrap_signed_small (bits z : Z) :
  0 < bits → - 2 ^ (bits - 1) <= z < 2 ^ (bits - 1) → wrap_signed bits z = z.
Proof.
  intros Hb Hz. unfold wrap_signed.
  assert (E : 2 ^ bits = 2 * 2 ^ (bits - 1)).
  { replace bits with (Z.succ (bits - 1)) at 1 by lia.
    rewrite Z.pow_succ_r by lia. reflexivity. }
  rewrite Z.mod_small by lia. lia.
Qed.

Lemma wrap_signed_unsigned (lo hi z : Z) :
  0 < lo <= hi → wrap_signed lo (wrap_unsigned hi z) = wrap_signed lo z.
Proof.
  intros Hb. unfold wrap_signed, wrap_unsigned. f_equal.
  assert (E : 2 ^ hi = 2 ^ (hi - lo) * 2 ^ lo).
  { rewrite <- Z.pow_add_r by lia. f_equal. lia. }
  assert (0 < 2 ^ lo) by (apply Z.pow_pos_nonneg; lia).
  assert (0 < 2 ^ (hi - lo)) by (apply Z.pow_pos_nonneg; lia).
  rewrite (Z.mod_eq z (2 ^ hi)) by lia.
  replace (z - 2 ^ hi * (z / 2 ^ hi) + 2 ^ (lo - 1))
    with (z + 2 ^ (lo - 1) + (- (2 ^ (hi - lo) * (z / 2 ^ hi))) * 2 ^ lo)
    by (rewrite E; ring).
  apply Z_mod_plus_full.
Qed.

Lemma in_int_wide (bits z : Z) :
  32 <= bits → in_int z → - 2 ^ (bits - 1) <= z < 2 ^ (bits - 1).
Proof.
  unfold in_int. intros Hb Hz.
  assert (2 ^ 31 <= 2 ^ (bits - 1)) by (apply Z.pow_le_mono_r; lia). lia.
Qed.

(** [(int)(void* )(long)res] is [res], for every [int] and every platform
    whose [long] and pointers are at least as wide as [int]. *)
Lemma exit_value_round_trip `{Platform} (res : Z) :
  32 <= long_bits → 32 <= ptr_bits → in_int res →
  int_of_ptr (ptr_of_long (long_of_int res)) = res.
Proof.
  intros Hl Hp Hr. unfold int_of_ptr, ptr_of_long, long_of_int, int_bits.
  rewrite (wrap_signed_small long_bits) by (auto using in_int_wide; lia).
  rewrite wrap_signed_unsigned by lia.
  apply wrap_signed_small; [lia | exact Hr].
Qed.

(** ** What each wrapper makes of the primitive's result

    These hold for every implementation of the native facility. *)

Section Mapping.
Context {plat : Platform} {S : Type} {native : Pthread S}.

Lemma bind_returns {A B} (m : M S A) (f : A → M S B) self w a w' :
  m self w = Returns a w' → (m ≫= f) self w = f a self w'.
Proof. unfold mbind, M_bind. intros ->. reflexivity. Qed.

Lemma bind_inv {A B} (m : M S A) (f : A → M S B) self w b w'' :
  (m ≫= f) self w = Returns b w'' →
  ∃ a w', m self w = Returns a w' ∧ f a self w' = Returns b w''.
Proof.
  unfold mbind, M_bind. destruct (m self w) as [a w'| | |]; try discriminate.
  eauto.
Qed.

Lemma fmap_inv {A B} (g : A → B) (m : M S A) self w b w' :
  (g <$> m) self w = Returns b w' → ∃ a, m self w = Returns a w' ∧ b = g a.
Proof.
  unfold fmap, M_fmap. intros (a & w1 & Hm & Hr)%bind_inv.
  unfold mret, M_ret in Hr. injection Hr as <- <-. eauto.
Qed.

Lemma fmap_returns {A B} (g : A → B) (m : M S A) self w a w' :
  m self w = Returns a w' → (g <$> m) self w = Returns (g a) w'.
Proof.
  intros Hm. unfold fmap, M_fmap. by rewrite (bind_returns _ _ _ _ _ _ Hm).
Qed.

Lemma discard_returns (m : M S Z) self w rc w' :
  m self w = Returns rc w' → (m;; mret tt) self w = Returns tt w'.
Proof. intros Hm. by rewrite (bind_returns _ _ _ _ _ _ Hm). Qed.

(** The translation shared by the wrappers that only test for zero. *)
Lemma zero_test_inv (m : M S Z) self w s w' :
  (rc ← m; mret (if rc =? 0 then thrd_success else thrd_error)) self w
    = Returns s w' →
  ∃ rc, m self w = Returns rc w' ∧
        s = (if rc =? 0 then thrd_success else thrd_error).
Proof.
  intros (rc & w1 & Hm & Hr)%bind_inv.
  unfold mret, M_ret in Hr. injection Hr as <- <-. eauto.
Qed.

Lemma mtx_lock_inv mtx self w s w' :
  mtx_lock mtx self w = Returns s w' →
  ∃ res, pthread_mutex_lock mtx self w = Returns res w' ∧
         s = (if res =? EDEADLK then thrd_busy
              else if res =? 0 then thrd_success else thrd_error).
Proof.
  unfold mtx_lock. intros (res & w1 & Hm & Hr)%bind_inv.
  exists res. destruct (res =? EDEADLK);
    unfold mret, M_ret in Hr; injection Hr as <- <-; auto.
Qed.

Lemma mtx_trylock_inv mtx self w s w' :
  mtx_trylock mtx self w = Returns s w' →
  ∃ res, pthread_mutex_trylock mtx self w = Returns res w' ∧
         s = (if res =? EBUSY then thrd_busy
              else if res =? 0 then thrd_success else thrd_error).
Proof.
  unfold mtx_trylock. intros (res & w1 & Hm & Hr)%bind_inv.
  exists res. destruct (res =? EBUSY);
    unfold mret, M_ret in Hr; injection Hr as <- <-; auto.
Qed.

Lemma thrd_join_returns thr res self w rc rv w' :
  pthread_join thr self w = Returns (rc, rv) w' →
  thrd_join thr res self w =
    if rc =? 0 then
      if res =? NULL then Returns thrd_success w'
      else Returns thrd_success (World (<[res := int_of_ptr rv]> (mem w')) (sys w'))
    else Returns thrd_error w'.
Proof.
  intros Hj. unfold thrd_join. rewrite (bind_returns _ _ _ _ _ _ Hj). cbn.
  destruct (rc =? 0); cbn; [|reflexivity].
  unfold mbind, M_bind, store, mret, M_ret.
  destruct (res =? NULL) eqn:E; cbn; rewrite ?E; reflexivity.
Qed.

Lemma thrd_join_inv thr res self w s w'' :
  thrd_join thr res self w = Returns s w'' →
  ∃ rc rv w', pthread_join thr self w = Returns (rc, rv) w' ∧
    thrd_join thr res self w =
      if rc =? 0 then
        if res =? NULL then Returns thrd_success w'
        else Returns thrd_success (World (<[res := int_of_ptr rv]> (mem w')) (sys w'))
      else Returns thrd_error w'.
Proof.
  intros Hr. destruct (pthread_join thr self w) as [[rc rv] w'| | |] eqn:Hj.
  - exists rc, rv, w'. split; [reflexivity|]. by apply thrd_join_returns.
  - unfold thrd_join, mbind, M_bind in Hr. by rewrite Hj in Hr.
  - unfold thrd_join, mbind, M_bind in Hr. by rewrite Hj in Hr.
  - unfold thrd_join, mbind, M_bind in Hr. by rewrite Hj in Hr.
Qed.

(** *** the world a wrapper leaves is the world its one primitive call leaves *)

Lemma after_bind_ret {A B} (m : M S A) (g : A → B) self w :
  after ((a ← m; mret (g a)) self w) = after (m self w).
Proof.
  unfold mbind, M_bind, mret, M_ret. destruct (m self w); reflexivity.
Qed.

Lemma after_fmap {A B} (g : A → B) (m : M S A) self w :
  after ((g <$> m) self w) = after (m self w).
Proof. apply after_bind_ret. Qed.

Lemma after_thrd_exit res self w :
  after (thrd_exit res self w)
  = after (pthread_exit (ptr_of_long (long_of_int res)) self w).
Proof.
  unfold thrd_exit, mbind, M_bind.
  destruct (pthread_exit _ self w) as [[]| | |]; reflexivity.
Qed.

Lemma after_thrd_join thr res self w :
  after (thrd_join thr res self w)
  = match pthread_join thr self w with
    | Returns (rc, rv) w' =>
        Some (if (rc =? 0) && negb (res =? NULL)
              then World (<[res := int_of_ptr rv]> (mem w')) (sys w')
              else w')
    | Exits w' => Some w'
    | _ => None
    end.
Proof.
  destruct (pthread_join thr self w) as [[rc rv] w'| | |] eqn:Hj.
  - rewrite (thrd_join_returns _ _ _ _ _ _ _ Hj).
    destruct (rc =? 0), (res =? NULL); reflexivity.
  - unfold thrd_join, mbind, M_bind. by rewrite Hj.
  - unfold thrd_join, mbind, M_bind. by rewrite Hj.
  - unfold thrd_join, mbind, M_bind. by rewrite Hj.
Qed.

Lemma after_mtx_lock mtx self w :
  after (mtx_lock mtx self w) = after (pthread_mutex_lock mtx self w).
Proof.
  unfold mtx_lock, mbind, M_bind, mret, M_ret.
  destruct (pthread_mutex_lock mtx self w) as [res ?| | |]; try reflexivity.
  destruct (res =? EDEADLK); reflexivity.
Qed.

Lemma after_mtx_trylock mtx self w :
  after (mtx_trylock mtx self w) = after (pthread_mutex_trylock mtx self w).
Proof.
  unfold mtx_trylock, mbind, M_bind, mret, M_ret.
  destruct (pthread_mutex_trylock mtx self w) as [res ?| | |]; try reflexivity.
  destruct (res =? EBUSY); reflexivity.
Qed.

(** Every function of the header makes exactly one call into the native
    facility, and what it changes beyond that call is the one store of
    [thrd_join]. *)
Lemma after_exec o self w :
  after (exec o self w)
  = match o with
    | ThrdCreate thr func arg => after (pthread_create thr 0 func arg self w)
    | ThrdExit res =>
        after (pthread_exit (ptr_of_long (long_of_int res)) self w)
    | ThrdJoin thr res =>
        match pthread_join thr self w with
        | Returns (rc, rv) w' =>
            Some (if (rc =? 0) && negb (res =? NULL)
                  then World (<[res := int_of_ptr rv]> (mem w')) (sys w')
                  else w')
        | Exits w' => Some w'
        | _ => None
        end
    | ThrdDetatch thr => after (pthread_detach thr self w)
    | ThrdCurrent => after (pthread_self self w)
    | ThrdEqual a b => after (pthread_equal a b self w)
    | ThrdYield => after (sched_yield self w)
    | MtxInit mtx _ => after (pthread_mutex_init mtx NULL self w)
    | MtxDestroy mtx => after (pthread_mutex_destroy mtx self w)
    | MtxLock mtx => after (pthread_mutex_lock mtx self w)
    | MtxTrylock mtx => after (pthread_mutex_trylock mtx self w)
    | MtxUnlock mtx => after (pthread_mutex_unlock mtx self w)
    | CndInit cond => after (pthread_cond_init cond 0 self w)
    | CndDestroy cond => after (pthread_cond_destroy cond self w)
    | CndSignal cond => after (pthread_cond_signal cond self w)
    | CndBroadcast cond => after (pthread_cond_broadcast cond self w)
    | CndWait cond mtx => after (pthread_cond_wait cond mtx self w)
    | TssCreate key dtor => after (pthread_key_create key dtor self w)
    | TssDelete key => after (pthread_key_delete key self w)
    | TssSet key val => after (pthread_setspecific key val self w)
    | TssGet key => after (pthread_getspecific key self w)
    | CallOnce flag func => after (pthread_once flag func self w)
    end.
Proof.
  destruct o; cbn [exec]; rewrite after_fmap;
    first [ apply after_thrd_exit | apply after_thrd_join
          | apply after_mtx_lock | apply after_mtx_trylock
          | apply after_bind_ret | reflexivity ].
Qed.

End Mapping.

(** ** The reference implementation: what a step preserves *)

Section PosixSteps.
Context {plat : Platform}.

Ltac prim :=
  cbn [pthread_create pthread_exit pthread_join pthread_detach pthread_self
       pthread_equal sched_yield pthread_mutex_init pthread_mutex_destroy
       pthread_mutex_lock pthread_mutex_trylock pthread_mutex_unlock
       pthread_cond_init pthread_cond_destroy pthread_cond_signal
       pthread_cond_broadcast pthread_cond_wait pthread_key_create
       pthread_key_delete pthread_setspecific pthread_getspecific pthread_once
       Posix.pthreads] in *.

Ltac model :=
  unfold Posix.pthread_create, Posix.pthread_exit, Posix.pthread_join,
    Posix.pthread_detach, Posix.pthread_self, Posix.pthread_equal,
    Posix.sched_yield, Posix.pthread_mutex_init, Posix.pthread_mutex_destroy,
    Posix.pthread_mutex_lock, Posix.pthread_mutex_trylock,
    Posix.pthread_mutex_unlock, Posix.pthread_cond_init,
    Posix.pthread_cond_destroy, Posix.pthread_cond_signal,
    Posix.pthread_cond_broadcast, Posix.pthread_cond_wait,
    Posix.pthread_key_create, Posix.pthread_key_delete,
    Posix.pthread_setspecific, Posix.pthread_getspecific, Posix.pthread_once,
    Posix.sysop, mret, M_ret in *;
  cbv beta iota zeta in *.

Ltac reduce_after := cbn [after] in *.

Ltac cases :=
  repeat first [ case_match | progress reduce_after ]; simplify_eq;
  cbn [sys mem Posix.threads Posix.slots Posix.mutexes Posix.calls Posix.heap
       Posix.onces Posix.conds Posix.blocks Posix.with_blocks
       Posix.with_threads Posix.with_slots
       Posix.with_mutexes Posix.with_conds Posix.with_onces Posix.with_heap
       Posix.invoke Posix.values Posix.dtor Posix.forget] in *.


(** The calls that are not thread management leave the thread table alone. *)
Lemma threads_frame o self (w w' : world Posix.state) :
  match o with
  | ThrdCreate _ _ _ | ThrdExit _ | ThrdJoin _ _ | ThrdDetatch _ => False
  | _ => True
  end →
  after (exec o self w) = Some w' →
  Posix.threads (sys w') = Posix.threads (sys w).
Proof.
  intros Hq. rewrite after_exec.
  destruct o; try done; prim; model; intros Hs; cases; done.
Qed.


(** A terminated thread keeps its exit value until its handle is consumed. *)
Lemma zombie_step o self (w w' : world Posix.state) t v :
  Posix.consumes t o = false → Posix.alive w self = true →
  after (exec o self w) = Some w' →
  Posix.threads (sys w) !! t = Some (Posix.Zombie v) →
  Posix.threads (sys w') !! t = Some (Posix.Zombie v).
Proof.
  intros Hc Ha Hs Ht.
  destruct o;
    try (rewrite (threads_frame _ _ _ _ I Hs); exact Ht);
    rewrite after_exec in Hs; unfold Posix.alive, Posix.consumes in *;
    prim; model; cases.
  all: try done.
  - rewrite lookup_insert_ne; [done|].
    intros E. apply (is_fresh (dom (Posix.threads (sys w)))).
    rewrite E. apply elem_of_dom. eauto.
  - destruct (Posix.threads (sys w) !! self) as [[[]|]|] eqn:E; simplify_eq;
      rewrite ?lookup_insert_ne, ?lookup_delete_ne by congruence; done.
  - apply Z.eqb_neq in Hc. by rewrite lookup_delete_ne.
  - apply Z.eqb_neq in Hc. by rewrite lookup_delete_ne.
  - apply Z.eqb_neq in Hc. by rewrite lookup_insert_ne.
  - apply Z.eqb_neq in Hc. by rewrite lookup_delete_ne.
Qed.




(** *** over a whole run *)

Lemma run_cons t o tr (w w' : world Posix.state) :
  Posix.run ((t, o) :: tr) w = Some w' →
  Posix.alive w t = true ∧
  ∃ w1, after (exec o t w) = Some w1 ∧ Posix.run tr w1 = Some w'.
Proof.
  cbn [Posix.run]. destruct (Posix.alive w t); [|done].
  destruct (after (exec o t w)) as [w1|]; [|done]. eauto.
Qed.


Lemma run_zombie tr (w w' : world Posix.state) t v :
  Posix.unclaimed t tr = true → Posix.run tr w = Some w' →
  Posix.threads (sys w) !! t = Some (Posix.Zombie v) →
  Posix.threads (sys w') !! t = Some (Posix.Zombie v).
Proof.
  revert w. induction tr as [|[u o] tr IH]; intros w Hu Hr Ht.
  - by injection Hr as <-.
  - apply run_cons in Hr as (Ha & w1 & Hs & Hr).
    cbn [Posix.unclaimed forallb snd] in Hu.
    apply andb_prop in Hu as [Ho Hu]. apply negb_true_iff in Ho.
    apply (IH w1 Hu Hr). eauto using zombie_step.
Qed.



End PosixSteps.

(** ** The claims about the translation of results *)

Section Results.
Context {plat : Platform} {S : Type} {native : Pthread S}.

(** C2. [mtx_lock] returns busy when the native lock reports [EDEADLK],
    success when it returns 0, and the generic error for every other
    result.  ([EDEADLK] is an error number, hence not 0.) *)
Theorem mtx_lock_status (mtx self : Z) (w w' : world S) (res : Z) :
  EDEADLK ≠ 0 →
  pthread_mutex_lock mtx self w = Returns res w' →
  (res = EDEADLK → mtx_lock mtx self w = Returns thrd_busy w') ∧
  (res = 0 → mtx_lock mtx self w = Returns thrd_success w') ∧
  (res ≠ EDEADLK → res ≠ 0 → mtx_lock mtx self w = Returns thrd_error w').
Proof.
  intros Hne Hp. unfold mtx_lock. rewrite (bind_returns _ _ _ _ _ _ Hp).
  repeat split.
  - intros ->. by rewrite Z.eqb_refl.
  - intros ->. by destruct (Z.eqb_spec 0 EDEADLK).
  - intros H1 H2. destruct (Z.eqb_spec res EDEADLK); [done|].
    by destruct (Z.eqb_spec res 0).
Qed.

(** C3. [mtx_trylock] returns busy when the native trylock reports [EBUSY]
    (and the call has returned: it did not block), success when it returns
    0, and the generic error for every other result. *)
Theorem mtx_trylock_status (mtx self : Z) (w w' : world S) (res : Z) :
  EBUSY ≠ 0 →
  pthread_mutex_trylock mtx self w = Returns res w' →
  (res = EBUSY → mtx_trylock mtx self w = Returns thrd_busy w') ∧
  (res = 0 → mtx_trylock mtx self w = Returns thrd_success w') ∧
  (res ≠ EBUSY → res ≠ 0 → mtx_trylock mtx self w = Returns thrd_error w').
Proof.
  intros Hne Hp. unfold mtx_trylock. rewrite (bind_returns _ _ _ _ _ _ Hp).
  repeat split.
  - intros ->. by rewrite Z.eqb_refl.
  - intros ->. by destruct (Z.eqb_spec 0 EBUSY).
  - intros H1 H2. destruct (Z.eqb_spec res EBUSY); [done|].
    by destruct (Z.eqb_spec res 0).
Qed.

(** C10. [mtx_destroy], [cnd_destroy] and [tss_delete] hand nothing back:
    whatever code the native primitive returns, zero or not, the caller
    gets the same (empty) result, and the world is the one the primitive
    left. *)
Theorem destroy_discards_result (obj self : Z) (w w' : world S) (rc : Z) :
  (pthread_mutex_destroy obj self w = Returns rc w' →
     mtx_destroy obj self w = Returns tt w' ∧
     exec (MtxDestroy obj) self w = Returns RVoid w') ∧
  (pthread_cond_destroy obj self w = Returns rc w' →
     cnd_destroy obj self w = Returns tt w' ∧
     exec (CndDestroy obj) self w = Returns RVoid w') ∧
  (pthread_key_delete obj self w = Returns rc w' →
     tss_delete obj self w = Returns tt w' ∧
     exec (TssDelete obj) self w = Returns RVoid w').
Proof.
  repeat split; cbn [exec];
    try (change RVoid with (void tt); apply fmap_returns);
    unfold mtx_destroy, cnd_destroy, tss_delete;
    eauto using discard_returns.
Qed.

(** What a call of each function of the header hands back when it returns. *)
Lemma exec_returns (o : op) (self : Z) (w w' : world S) (r : retval) :
  exec o self w = Returns r w' →
  match o with
  | ThrdCreate _ _ _ | ThrdDetatch _ | MtxInit _ _ | MtxUnlock _
  | CndInit _ | CndSignal _ | CndBroadcast _ | CndWait _ _
  | TssCreate _ _ | TssSet _ _ | ThrdJoin _ _ =>
      r = RInt thrd_success ∨ r = RInt thrd_error
  | MtxLock _ | MtxTrylock _ =>
      r = RInt thrd_success ∨ r = RInt thrd_busy ∨ r = RInt thrd_error
  | ThrdExit _ => False
  | ThrdYield | MtxDestroy _ | CndDestroy _ | TssDelete _ | CallOnce _ _ =>
      r = RVoid
  | ThrdCurrent => ∃ t, r = RThrd t
  | ThrdEqual a b => ∃ z, r = RInt z ∧ pthread_equal a b self w = Returns z w'
  | TssGet _ => ∃ p, r = RPtr p
  end.
Proof.
  destruct o; cbn [exec]; intros (x & Ha & ->)%fmap_inv; eauto.
  all: try (apply zero_test_inv in Ha as (rc & _ & ->);
            destruct (rc =? 0); auto).
  - unfold thrd_exit in Ha. apply bind_inv in Ha as ([] & _).
  - destruct (thrd_join_inv _ _ _ _ _ _ Ha) as (rc & rv & w1 & _ & E).
    rewrite E in Ha. repeat case_match; simplify_eq; auto.
  - apply mtx_lock_inv in Ha as (res & _ & ->).
    destruct (res =? EDEADLK), (res =? 0); auto.
  - apply mtx_trylock_inv in Ha as (res & _ & ->).
    destruct (res =? EBUSY), (res =? 0); auto.
Qed.

(** C6, amended.  A function of the header that is declared with a status
    result returns exactly one value of the closed set; a function that is
    declared [void] ([call_once], the destroy and delete operations,
    [thrd_yield]) returns nothing; [thrd_current] returns a handle,
    [tss_get] a pointer and [thrd_equal] the result of the native
    comparison. *)
Theorem status_results (o : op) (self : Z) (w w' : world S) (r : retval) :
  exec o self w = Returns r w' →
  (returns_status o = true → ∃ s, r = RInt s ∧ is_status s) ∧
  (returns_nothing o = true → r = RVoid) ∧
  (o = ThrdCurrent → ∃ t, r = RThrd t) ∧
  (∀ key, o = TssGet key → ∃ p, r = RPtr p) ∧
  (∀ a b, o = ThrdEqual a b →
     ∃ z, r = RInt z ∧ pthread_equal a b self w = Returns z w').
Proof.
  intros He. apply exec_returns in He. unfold is_status.
  destruct o; cbn [returns_status returns_nothing];
    repeat split; try discriminate; try done; intros; simplify_eq;
    try (destruct He as [->|[->| ->]]; eauto 6);
    try (destruct He as [->| ->]; eauto 6); eauto.
Qed.

End Results.

(** ** The claims that rest on the behaviour of the native facility *)

Section PosixResults.
Context {plat : Platform}.

Lemma posix_thrd_exit res t (w w' : world Posix.state) :
  Posix.joinable w t = true →
  thrd_exit res t w = Exits w' →
  Posix.threads (sys w') !! t
  = Some (Posix.Zombie (ptr_of_long (long_of_int res))).
Proof.
  unfold Posix.joinable, thrd_exit, mbind, M_bind.
  cbn [pthread_exit Posix.pthreads]. unfold Posix.pthread_exit.
  intros Hj [= <-]. cbn [sys Posix.threads Posix.with_threads Posix.with_slots
                         Posix.with_blocks Posix.invoke].
  destruct (Posix.threads (sys w) !! t) as [[[]|]|]; try done.
  apply lookup_insert_eq.
Qed.

Lemma posix_join_zombie thr self v (w : world Posix.state) :
  Posix.alive w self = true →
  Posix.threads (sys w) !! thr = Some (Posix.Zombie v) →
  pthread_join thr self w
  = Returns (0, v)
      (World (mem w) (Posix.with_threads (delete thr) (sys w))).
Proof.
  unfold Posix.alive. intros Ha Ht.
  cbn [pthread_join Posix.pthreads]. unfold Posix.pthread_join.
  destruct (Z.eqb_spec thr self) as [->|_].
  - by rewrite Ht in Ha.
  - by rewrite Ht.
Qed.

Lemma posix_join_error thr res self (w w' : world Posix.state) :
  thrd_join thr res self w = Returns thrd_error w' → w' = w.
Proof.
  intros Hj. destruct (thrd_join_inv _ _ _ _ _ _ Hj) as (rc & rv & w1 & Hp & E).
  rewrite E in Hj. destruct (rc =? 0) eqn:Hrc.
  { destruct (res =? NULL); discriminate. }
  injection Hj as <-.
  cbn [pthread_join Posix.pthreads] in Hp. unfold Posix.pthread_join in Hp.
  repeat case_match; simplify_eq; done.
Qed.

Lemma posix_thrd_create thr func arg self (w w' : world Posix.state) s :
  thrd_create thr func arg self w = Returns s w' →
  (s = thrd_success ∧
   ∃ t, mem w' !! thr = Some t ∧
        Posix.threads (sys w) !! t = None ∧
        Posix.threads (sys w') !! t = Some (Posix.Running false) ∧
        Posix.calls (sys w') = Posix.calls (sys w) ++ [(func, arg)])
  ∨ (s = thrd_error ∧ w' = w).
Proof.
  unfold thrd_create. intros (rc & Hp & ->)%zero_test_inv.
  cbn [pthread_create Posix.pthreads] in Hp. unfold Posix.pthread_create in Hp.
  cbv zeta in Hp. repeat case_match; simplify_eq; try (right; done).
  left. split; [done|]. eexists. cbn [mem sys]. split_and!.
  - apply lookup_insert_eq.
  - apply not_elem_of_dom, is_fresh.
  - cbn. apply lookup_insert_eq.
  - reflexivity.
Qed.

Lemma posix_mtx_init mtx type self (w : world Posix.state) :
  mtx_init mtx type self w
  = Returns thrd_success
      (World (mem w) (Posix.with_mutexes (insert mtx None) (sys w))).
Proof. reflexivity. Qed.




End PosixResults.

(** C1. The exit value survives the trip through [void*], for every [int]
    value [res], on a platform whose [long] and pointers are at least as
    wide as [int].  For every native facility: [thrd_exit res] does not
    return, and it ends the thread exactly when [pthread_exit], called with
    the pointer [(void* )(long)res], does; and when the native join
    succeeds and hands back that pointer, [thrd_join] returns success and
    stores exactly [res].  On the reference implementation: a joinable
    thread [t] that calls [thrd_exit res] terminates and its exit value is
    kept; after any run in which nobody joins or detaches [t], a
    [thrd_join t out] by a running thread succeeds and leaves exactly [res]
    in [*out]. *)
Theorem thrd_exit_join_round_trip :
  (∀ (plat : Platform) (S : Type) (native : Pthread S)
     (res self : Z) (w : world S),
     (∀ u w1, thrd_exit res self w ≠ Returns u w1) ∧
     (∀ w1, thrd_exit res self w = Exits w1 ↔
            pthread_exit (ptr_of_long (long_of_int res)) self w = Exits w1)) ∧
  (∀ (plat : Platform) (S : Type) (native : Pthread S)
     (thr out self res : Z) (w w' : world S),
     32 <= long_bits → 32 <= ptr_bits → in_int res → out ≠ NULL →
     pthread_join thr self w
     = Returns (0, ptr_of_long (long_of_int res)) w' →
     thrd_join thr out self w
     = Returns thrd_success (World (<[out := res]> (mem w')) (sys w'))) ∧
  (∀ (plat : Platform) (w0 : world Posix.state) (t res : Z),
     32 <= long_bits → 32 <= ptr_bits → in_int res →
     Posix.joinable w0 t = true →
     ∃ w1, thrd_exit res t w0 = Exits w1 ∧
           Posix.threads (sys w1) !! t
           = Some (Posix.Zombie (ptr_of_long (long_of_int res))) ∧
           ∀ (w2 : world Posix.state) (j out : Z) (tr : list (Z * op)),
             Posix.unclaimed t tr = true →
             Posix.run tr w1 = Some w2 →
             Posix.alive w2 j = true →
             out ≠ NULL →
             ∃ w3, thrd_join t out j w2 = Returns thrd_success w3 ∧
                   mem w3 !! out = Some res).
Proof.
  assert (Hcode : ∀ (plat : Platform) (S : Type) (native : Pthread S)
            (thr out self res : Z) (w w' : world S),
            32 <= long_bits → 32 <= ptr_bits → in_int res → out ≠ NULL →
            pthread_join thr self w
            = Returns (0, ptr_of_long (long_of_int res)) w' →
            thrd_join thr out self w
            = Returns thrd_success (World (<[out := res]> (mem w')) (sys w'))).
  { intros plat S native thr out self res w w' Hl Hp Hres Hout Hjoin.
    rewrite (thrd_join_returns _ _ _ _ _ _ _ Hjoin).
    destruct (Z.eqb_spec out NULL) as [|_]; [done|]. cbn.
    by rewrite exit_value_round_trip. }
  split_and!; [|exact Hcode|].
  - intros plat S native res self w. split.
    + intros u w1 He. unfold thrd_exit in He.
      by apply bind_inv in He as ([] & _).
    + intros w1. unfold thrd_exit, mbind, M_bind.
      destruct (pthread_exit _ self w) as [[]| | |]; split; congruence.
  - intros plat w0 t res Hl Hp Hres Hj.
    assert (He : ∃ w1, thrd_exit res t w0 = Exits w1) by (eexists; reflexivity).
    destruct He as [w1 He]. exists w1. split; [exact He|].
    pose proof (posix_thrd_exit _ _ _ _ Hj He) as Hz. split; [exact Hz|].
    intros w2 j out tr Hu Hr Ha Hout.
    pose proof (run_zombie _ _ _ _ _ Hu Hr Hz) as Hz2.
    pose proof (posix_join_zombie _ _ _ _ Ha Hz2) as Hjoin.
    eexists. split; [by apply (Hcode plat)|]. cbn [mem].
    apply lookup_insert_eq.
Qed.

(** C4. The mode handed to [mtx_init] changes nothing: for every integer
    mode the call is the call with [mtx_plain]; the native mutex is
    initialised with the null (default) attributes; and on the reference
    implementation the call succeeds and leaves the mutex unlocked. *)
Theorem mtx_init_ignores_mode :
  (∀ (plat : Platform) (S : Type) (native : Pthread S)
     (mtx type self : Z) (w : world S),
     mtx_init mtx type self w = mtx_init mtx mtx_plain self w) ∧
  (∀ (plat : Platform) (S : Type) (native : Pthread S)
     (mtx type self rc : Z) (w w' : world S),
     pthread_mutex_init mtx NULL self w = Returns rc w' →
     mtx_init mtx type self w
     = Returns (if rc =? 0 then thrd_success else thrd_error) w') ∧
  (∀ (plat : Platform) (mtx type self : Z) (w : world Posix.state),
     ∃ w', mtx_init mtx type self w = Returns thrd_success w' ∧
           Posix.mutexes (sys w') !! mtx = Some None).
Proof.
  split_and!.
  - reflexivity.
  - intros plat S native mtx type self rc w w' Hp.
    unfold mtx_init. by rewrite (bind_returns _ _ _ _ _ _ Hp).
  - intros. eexists. split; [apply posix_mtx_init|].
    cbn. apply lookup_insert_eq.
Qed.

(** C5. [thrd_create] returns success when the native creation returns 0
    and the generic error when it returns anything else; it never returns
    busy; the world it leaves is the world of that one native call.  On the
    reference implementation: on success the handle stored through [thr]
    names a thread that did not exist before and now runs [func(arg)], and
    exactly one routine was started; on failure nothing has changed. *)
Theorem thrd_create_status :
  (∀ (plat : Platform) (S : Type) (native : Pthread S)
     (thr func arg self rc : Z) (w w' : world S),
     pthread_create thr 0 func arg self w = Returns rc w' →
     (rc = 0 → thrd_create thr func arg self w = Returns thrd_success w') ∧
     (rc ≠ 0 → thrd_create thr func arg self w = Returns thrd_error w')) ∧
  (∀ (plat : Platform) (S : Type) (native : Pthread S)
     (thr func arg self s : Z) (w w' : world S),
     thrd_create thr func arg self w = Returns s w' →
     s ≠ thrd_busy ∧ (s = thrd_success ∨ s = thrd_error) ∧
     ∃ rc, pthread_create thr 0 func arg self w = Returns rc w') ∧
  (∀ (plat : Platform) (thr func arg self s : Z) (w w' : world Posix.state),
     thrd_create thr func arg self w = Returns s w' →
     (s = thrd_success ∧
      ∃ t, mem w' !! thr = Some t ∧
           Posix.threads (sys w) !! t = None ∧
           Posix.threads (sys w') !! t = Some (Posix.Running false) ∧
           Posix.calls (sys w') = Posix.calls (sys w) ++ [(func, arg)])
     ∨ (s = thrd_error ∧ w' = w)).
Proof.
  split_and!.
  - intros plat S native thr func arg self rc w w' Hp.
    unfold thrd_create. rewrite (bind_returns _ _ _ _ _ _ Hp).
    split.
    + by intros ->.
    + intros Hne. by destruct (Z.eqb_spec rc 0).
  - intros plat S native thr func arg self s w w' Hc.
    unfold thrd_create in Hc.
    apply zero_test_inv in Hc as (rc & Hp & ->).
    destruct (rc =? 0); split_and!; eauto; done.
  - intros plat thr func arg self s w w'. apply posix_thrd_create.
Qed.

(** C9. [thrd_join] returns the generic error when the native join fails
    and then stores nothing; when the native join succeeds it returns
    success, and stores the exit value through [res] exactly when [res] is
    not null.  On the reference implementation a failed [thrd_join] leaves
    the whole world, the caller's memory included, as it was. *)
Theorem thrd_join_result :
  (∀ (plat : Platform) (S : Type) (native : Pthread S)
     (thr res self rc rv : Z) (w w' : world S),
     pthread_join thr self w = Returns (rc, rv) w' →
     (rc ≠ 0 → thrd_join thr res self w = Returns thrd_error w') ∧
     (rc = 0 → res = NULL →
        thrd_join thr res self w = Returns thrd_success w') ∧
     (rc = 0 → res ≠ NULL →
        thrd_join thr res self w
        = Returns thrd_success
            (World (<[res := int_of_ptr rv]> (mem w')) (sys w')))) ∧
  (∀ (plat : Platform) (thr res self : Z) (w w' : world Posix.state),
     thrd_join thr res self w = Returns thrd_error w' → w' = w).
Proof.
  split.
  - intros plat S native thr res self rc rv w w' Hp.
    rewrite (thrd_join_returns _ _ _ _ _ _ _ Hp). split_and!.
    + intros Hne. by destruct (Z.eqb_spec rc 0).
    + by intros -> ->.
    + intros -> Hne. by destruct (Z.eqb_spec res NULL).
  - intros plat thr res self w w'. apply posix_join_error.
Qed.


(** ** Further properties of the wrappers *)

Section More.
Context {plat : Platform} {S : Type} {native : Pthread S}.

(** X1. The wrappers that only test the native result for zero
    ([thrd_detatch], [mtx_unlock], [cnd_init], [cnd_signal],
    [cnd_broadcast], [cnd_wait], [tss_create], [tss_set]) return success
    for 0 and the generic error for everything else, and leave the world
    of their one native call. *)
Theorem zero_test_wrappers (a b self rc : Z) (w w' : world S) :
  let status := if rc =? 0 then thrd_success else thrd_error in
  (pthread_detach a self w = Returns rc w' →
     thrd_detatch a self w = Returns status w') ∧
  (pthread_mutex_unlock a self w = Returns rc w' →
     mtx_unlock a self w = Returns status w') ∧
  (pthread_cond_init a 0 self w = Returns rc w' →
     cnd_init a self w = Returns status w') ∧
  (pthread_cond_signal a self w = Returns rc w' →
     cnd_signal a self w = Returns status w') ∧
  (pthread_cond_broadcast a self w = Returns rc w' →
     cnd_broadcast a self w = Returns status w') ∧
  (pthread_cond_wait a b self w = Returns rc w' →
     cnd_wait a b self w = Returns status w') ∧
  (pthread_key_create a b self w = Returns rc w' →
     tss_create a b self w = Returns status w') ∧
  (pthread_setspecific a b self w = Returns rc w' →
     tss_set a b self w = Returns status w').
Proof.
  intros status. split_and!; intros Hp;
    unfold thrd_detatch, mtx_unlock, cnd_init, cnd_signal, cnd_broadcast,
      cnd_wait, tss_create, tss_set;
    by rewrite (bind_returns _ _ _ _ _ _ Hp).
Qed.

(** X2. [thrd_exit] does not return to its caller: whatever the native
    facility does, the call ends as the one call of [pthread_exit] with
    the converted value ends. *)
Theorem thrd_exit_does_not_return (res self : Z) (w : world S) :
  (∀ u w', thrd_exit res self w ≠ Returns u w') ∧
  after (thrd_exit res self w)
  = after (pthread_exit (ptr_of_long (long_of_int res)) self w).
Proof.
  split; [|apply after_thrd_exit].
  intros u w' He. unfold thrd_exit in He.
  by apply bind_inv in He as ([] & _).
Qed.

End More.


(** ** From the caller's side *)

Section Reading.
Context {plat : Platform} {S : Type} {native : Pthread S}.

Lemma ending_bind_ret {A B} (m : M S A) (g : A → B) self w :
  ending_of ((a ← m; mret (g a)) self w) = ending_of (m self w).
Proof.
  unfold mbind, M_bind, mret, M_ret. destruct (m self w); reflexivity.
Qed.

(** X4. Each function of the header returns, blocks, faults or ends the
    thread exactly as its one native call does: no function blocks or
    faults of its own, [thrd_join] never faults on a null [res], and
    [thrd_exit] returns only if [pthread_exit] does (it cannot). *)
Theorem ends_as_native_call (o : op) (self : Z) (w : world S) :
  ending_of (exec o self w)
  = match o with
    | ThrdCreate thr func arg =>
        ending_of (pthread_create thr 0 func arg self w)
    | ThrdExit res =>
        ending_of (pthread_exit (ptr_of_long (long_of_int res)) self w)
    | ThrdJoin thr _ => ending_of (pthread_join thr self w)
    | ThrdDetatch thr => ending_of (pthread_detach thr self w)
    | ThrdCurrent => ending_of (pthread_self self w)
    | ThrdEqual a b => ending_of (pthread_equal a b self w)
    | ThrdYield => ending_of (sched_yield self w)
    | MtxInit mtx _ => ending_of (pthread_mutex_init mtx NULL self w)
    | MtxDestroy mtx => ending_of (pthread_mutex_destroy mtx self w)
    | MtxLock mtx => ending_of (pthread_mutex_lock mtx self w)
    | MtxTrylock mtx => ending_of (pthread_mutex_trylock mtx self w)
    | MtxUnlock mtx => ending_of (pthread_mutex_unlock mtx self w)
    | CndInit cond => ending_of (pthread_cond_init cond 0 self w)
    | CndDestroy cond => ending_of (pthread_cond_destroy cond self w)
    | CndSignal cond => ending_of (pthread_cond_signal cond self w)
    | CndBroadcast cond => ending_of (pthread_cond_broadcast cond self w)
    | CndWait cond mtx => ending_of (pthread_cond_wait cond mtx self w)
    | TssCreate key dtor => ending_of (pthread_key_create key dtor self w)
    | TssDelete key => ending_of (pthread_key_delete key self w)
    | TssSet key val => ending_of (pthread_setspecific key val self w)
    | TssGet key => ending_of (pthread_getspecific key self w)
    | CallOnce flag func => ending_of (pthread_once flag func self w)
    end.
Proof.
  destruct o; cbn [exec]; unfold fmap, M_fmap; rewrite ending_bind_ret;
    try apply ending_bind_ret; try reflexivity.
  - unfold thrd_exit, mbind, M_bind.
    destruct (pthread_exit _ self w) as [[]| | |]; reflexivity.
  - destruct (pthread_join thr self w) as [[rc rv] w'| | |] eqn:Hj;
      try (unfold thrd_join, mbind, M_bind; by rewrite Hj).
    rewrite (thrd_join_returns _ _ _ _ _ _ _ Hj).
    destruct (rc =? 0), (res =? NULL); reflexivity.
  - unfold mtx_lock, mbind, M_bind, mret, M_ret.
    destruct (pthread_mutex_lock mtx self w) as [res ?| | |]; try reflexivity.
    destruct (res =? EDEADLK); reflexivity.
  - unfold mtx_trylock, mbind, M_bind, mret, M_ret.
    destruct (pthread_mutex_trylock mtx self w) as [res ?| | |];
      try reflexivity.
    destruct (res =? EBUSY); reflexivity.
Qed.

Lemma zero_reading_intro (rc : Z) :
  zero_reading (if rc =? 0 then thrd_success else thrd_error) rc.
Proof. unfold zero_reading. destruct (Z.eqb_spec rc 0); auto. Qed.

Lemma busy_reading_intro (code rc : Z) :
  busy_reading code
    (if rc =? code then thrd_busy
     else if rc =? 0 then thrd_success else thrd_error) rc.
Proof.
  unfold busy_reading. destruct (Z.eqb_spec rc code); [auto|].
  right. split; [done|]. apply zero_reading_intro.
Qed.

(** X5. What the caller can read off a returned status, function by
    function: success is returned only when the native call returned 0,
    the generic error only when it returned something else, and busy only
    by [mtx_lock] on [EDEADLK] and by [mtx_trylock] on [EBUSY]. *)
Theorem status_tells (o : op) (self s : Z) (w w' : world S) :
  exec o self w = Returns (RInt s) w' →
  match o with
  | ThrdCreate thr func arg =>
      ∃ rc, pthread_create thr 0 func arg self w = Returns rc w' ∧
            zero_reading s rc
  | ThrdJoin thr res =>
      ∃ rc rv w1, pthread_join thr self w = Returns (rc, rv) w1 ∧
                  zero_reading s rc
  | ThrdDetatch thr =>
      ∃ rc, pthread_detach thr self w = Returns rc w' ∧ zero_reading s rc
  | MtxInit mtx _ =>
      ∃ rc, pthread_mutex_init mtx NULL self w = Returns rc w' ∧
            zero_reading s rc
  | MtxLock mtx =>
      ∃ rc, pthread_mutex_lock mtx self w = Returns rc w' ∧
            busy_reading EDEADLK s rc
  | MtxTrylock mtx =>
      ∃ rc, pthread_mutex_trylock mtx self w = Returns rc w' ∧
            busy_reading EBUSY s rc
  | MtxUnlock mtx =>
      ∃ rc, pthread_mutex_unlock mtx self w = Returns rc w' ∧
            zero_reading s rc
  | CndInit cond =>
      ∃ rc, pthread_cond_init cond 0 self w = Returns rc w' ∧
            zero_reading s rc
  | CndSignal cond =>
      ∃ rc, pthread_cond_signal cond self w = Returns rc w' ∧
            zero_reading s rc
  | CndBroadcast cond =>
      ∃ rc, pthread_cond_broadcast cond self w = Returns rc w' ∧
            zero_reading s rc
  | CndWait cond mtx =>
      ∃ rc, pthread_cond_wait cond mtx self w = Returns rc w' ∧
            zero_reading s rc
  | TssCreate key dtor =>
      ∃ rc, pthread_key_create key dtor self w = Returns rc w' ∧
            zero_reading s rc
  | TssSet key val =>
      ∃ rc, pthread_setspecific key val self w = Returns rc w' ∧
            zero_reading s rc
  | ThrdEqual a b => pthread_equal a b self w = Returns s w'
  | _ => False
  end.
Proof.
  destruct o; cbn [exec]; intros (x & Ha & E)%fmap_inv;
    try discriminate E; try (injection E as ->).
  all: try (apply zero_test_inv in Ha as (rc & Hp & ->);
            exists rc; split; [exact Hp | apply zero_reading_intro]).
  - destruct (thrd_join_inv _ _ _ _ _ _ Ha) as (rc & rv & w1 & Hp & Hj).
    exists rc, rv, w1. split; [exact Hp|]. rewrite Hj in Ha.
    unfold zero_reading. destruct (Z.eqb_spec rc 0).
    + left. destruct (res =? NULL); by injection Ha as <-.
    + right. by injection Ha as <-.
  - exact Ha.
  - apply mtx_lock_inv in Ha as (rc & Hp & ->).
    exists rc. split; [exact Hp | apply busy_reading_intro].
  - apply mtx_trylock_inv in Ha as (rc & Hp & ->).
    exists rc. split; [exact Hp | apply busy_reading_intro].
Qed.

(** X6. No function of the header ever returns [thrd_nomem], and none but
    [mtx_lock] and [mtx_trylock] ever returns [thrd_busy]. *)
Theorem never_nomem (o : op) (self s : Z) (w w' : world S) :
  returns_status o = true →
  exec o self w = Returns (RInt s) w' →
  s ≠ thrd_nomem ∧
  (s = thrd_busy → (∃ mtx, o = MtxLock mtx) ∨ (∃ mtx, o = MtxTrylock mtx)).
Proof.
  intros Hs He. apply exec_returns in He.
  destruct o; try discriminate Hs;
    repeat match goal with H : _ ∨ _ |- _ => destruct H as [H|H] end;
    injection He as ->; split; try discriminate; eauto.
Qed.

(** X7. What [thrd_join] stores is always an [int]: the low 32 bits of
    the exit pointer, read as two's complement, whatever pointer the
    thread ended with. *)
Theorem thrd_join_stores_int (thr res self rc rv : Z) (w w' : world S) :
  pthread_join thr self w = Returns (0, rv) w' →
  res ≠ NULL →
  ∃ v, thrd_join thr res self w
       = Returns thrd_success (World (<[res := v]> (mem w')) (sys w')) ∧
       in_int v ∧ (v - rv) mod 2 ^ 32 = 0.
Proof.
  intros Hp Hres. exists (int_of_ptr rv).
  rewrite (thrd_join_returns _ _ _ _ _ _ _ Hp).
  destruct (Z.eqb_spec res NULL); [done|]. split; [reflexivity|].
  unfold int_of_ptr, wrap_signed, int_bits, in_int.
  change (32 - 1) with 31.
  pose proof (Z.mod_pos_bound (rv + 2 ^ 31) (2 ^ 32) eq_refl) as Hb.
  split; [lia|].
  rewrite (Z.mod_eq (rv + 2 ^ 31) (2 ^ 32)) by lia.
  replace (rv + 2 ^ 31 - 2 ^ 32 * ((rv + 2 ^ 31) / 2 ^ 32) - 2 ^ 31 - rv)
    with (- ((rv + 2 ^ 31) / 2 ^ 32) * 2 ^ 32) by ring.
  apply Z_mod_mult.
Qed.

(** X8. The pointer [thrd_exit] hands to [pthread_exit] is [res] itself
    for a non-negative [res] and [2 ^ ptr_bits + res] for a negative one:
    an address of the platform, null exactly for [res = 0]. *)
Theorem thrd_exit_pointer (res self : Z) (w : world S) :
  32 <= long_bits → 32 <= ptr_bits → in_int res →
  let p := if res <? 0 then 2 ^ ptr_bits + res else res in
  after (thrd_exit res self w) = after (pthread_exit p self w) ∧
  0 <= p < 2 ^ ptr_bits ∧
  (p = NULL ↔ res = 0).
Proof.
  intros Hl Hp Hr p.
  assert (Hwide : 2 ^ 31 < 2 ^ ptr_bits) by (apply Z.pow_lt_mono_r; lia).
  assert (E : ptr_of_long (long_of_int res) = p).
  { unfold ptr_of_long, long_of_int, wrap_unsigned.
    rewrite (wrap_signed_small long_bits) by (auto using in_int_wide; lia).
    unfold in_int in Hr. subst p. destruct (Z.ltb_spec res 0).
    - rewrite <- (Z_mod_plus_full res 1 (2 ^ ptr_bits)).
      rewrite Z.mod_small by lia. lia.
    - apply Z.mod_small. lia. }
  rewrite after_thrd_exit, E. split; [reflexivity|].
  unfold in_int in Hr. subst p. unfold NULL.
  destruct (Z.ltb_spec res 0); lia.
Qed.

(** X9. [thrd_yield] and [call_once] hand nothing back either: whatever
    code [sched_yield] or [pthread_once] returns, the caller gets the same
    (empty) result, with the world the native call left. *)
Theorem yield_once_discard_result (flag func self rc : Z) (w w' : world S) :
  (sched_yield self w = Returns rc w' →
     thrd_yield self w = Returns tt w' ∧
     exec ThrdYield self w = Returns RVoid w') ∧
  (pthread_once flag func self w = Returns rc w' →
     call_once flag func self w = Returns tt w' ∧
     exec (CallOnce flag func) self w = Returns RVoid w').
Proof.
  repeat split; cbn [exec];
    try (change RVoid with (void tt); apply fmap_returns);
    unfold thrd_yield, call_once; eauto using discard_returns.
Qed.


End Reading.

(** ** Examples on Linux, over the reference implementation *)

Section Linux.
#[local] Existing Instance linux_lp64.

(** The worlds of the examples are worlds of runs from start-up. *)
Example spawned_run :
  Posix.run [(1, ThrdCreate 100 7 8)] (Posix.boot 1 false)
  = Some (Scenario.spawned
            {[1 := Posix.Running false; 2 := Posix.Running false]}).
Proof. vm_compute. reflexivity. Qed.

Example held_run :
  Posix.run [(1, ThrdCreate 100 7 8); (1, MtxInit 5 mtx_plain); (2, MtxLock 5)]
    (Posix.boot 1 true)
  = Some (Scenario.held 2 true).
Proof. vm_compute. reflexivity. Qed.

Example keyed_run :
  Posix.run [(1, TssCreate 300 9); (1, TssSet 0 7)] (Posix.boot 2 false)
  = Some (Scenario.keyed {[1 := 7]} 2).
Proof. vm_compute. reflexivity. Qed.

Example crowded_run :
  Posix.run (replicate 33 (1, TssCreate 300 0)) (Posix.boot 0 false)
  = Some (Scenario.crowded 33).
Proof. vm_compute. reflexivity. Qed.

(** [(void* )(long)(-1)] is the all-ones pointer, and [(int)] of it is
    [-1] again. *)
Example exit_value_minus_one :
  ptr_of_long (long_of_int (-1)) = 2 ^ 64 - 1 ∧ int_of_ptr (2 ^ 64 - 1) = -1.
Proof. split; reflexivity. Qed.

(** A second [thrd_join] of the same thread fails: the handle is gone. *)
Example join_twice :
  Posix.run [(1, ThrdCreate 100 7 8); (2, ThrdExit 3); (1, ThrdJoin 2 200)]
    (Posix.boot 1 false)
  = Some (World {[100 := 2; 200 := 3]}
            (Posix.State {[1 := Posix.Running false]} ∅ ∅ ∅ ∅ ∅ [(7, 8)] 0 false))
  ∧ thrd_join 2 200 1
      (World {[100 := 2; 200 := 3]}
         (Posix.State {[1 := Posix.Running false]} ∅ ∅ ∅ ∅ ∅ [(7, 8)] 0 false))
    = Returns thrd_error
        (World {[100 := 2; 200 := 3]}
           (Posix.State {[1 := Posix.Running false]} ∅ ∅ ∅ ∅ ∅ [(7, 8)] 0 false)).
Proof. split; vm_compute; reflexivity. Qed.

(** Thread 2 ends with [thrd_exit(-5)]; thread 1 yields, then joins it
    with [out = 200] and reads [-5]. *)
Lemma thrd_exit_join_round_trip_witness :
  let w0 := Scenario.spawned
              {[1 := Posix.Running false; 2 := Posix.Running false]} in
  let w1 := Scenario.spawned
              {[1 := Posix.Running false; 2 := Posix.Zombie (2 ^ 64 - 5)]} in
  thrd_exit (-5) 2 w0 = Exits w1 ∧
  Posix.run [(1, ThrdYield)] w1 = Some w1 ∧
  ∃ w3, thrd_join 2 200 1 w1 = Returns thrd_success w3 ∧
        mem w3 !! 200 = Some (-5).
Proof.
  intros w0 w1.
  assert (He : thrd_exit (-5) 2 w0 = Exits w1) by (vm_compute; reflexivity).
  assert (Hr : Posix.run [(1, ThrdYield)] w1 = Some w1)
    by (vm_compute; reflexivity).
  assert (H32 : 32 <= 64) by lia.
  assert (Hint : in_int (-5)) by (unfold in_int; lia).
  split; [exact He|]. split; [exact Hr|].
  destruct (proj2 (proj2 thrd_exit_join_round_trip) linux_lp64 w0 2 (-5)
              H32 H32 Hint eq_refl) as (w1' & He' & _ & Hjoin).
  assert (E : w1' = w1) by congruence. subst w1'.
  apply (Hjoin w1 1 200 [(1, ThrdYield)]);
    [reflexivity | exact Hr | vm_compute; reflexivity | discriminate].
Defined.

(** Thread 1 locks again the mutex it holds, and the facility checks. *)
Lemma mtx_lock_status_witness :
  let w := Scenario.held 1 true in
  pthread_mutex_lock 5 1 w = Returns EDEADLK w ∧
  mtx_lock 5 1 w = Returns thrd_busy w.
Proof.
  intros w. split; [reflexivity|].
  apply (mtx_lock_status 5 1 w w EDEADLK); [discriminate | reflexivity | reflexivity].
Defined.

(** Thread 1 tries the mutex that thread 2 holds. *)
Lemma mtx_trylock_status_witness :
  let w := Scenario.held 2 false in
  pthread_mutex_trylock 5 1 w = Returns EBUSY w ∧
  mtx_trylock 5 1 w = Returns thrd_busy w.
Proof.
  intros w. split; [reflexivity|].
  apply (mtx_trylock_status 5 1 w w EBUSY); [discriminate | reflexivity | reflexivity].
Defined.

(** Thread 1 destroys the mutex that thread 2 holds: the native call
    fails with [EBUSY], and [mtx_destroy] returns as ever. *)
Lemma destroy_discards_result_witness :
  let w := Scenario.held 2 false in
  pthread_mutex_destroy 5 1 w = Returns EBUSY w ∧
  mtx_destroy 5 1 w = Returns tt w ∧
  exec (MtxDestroy 5) 1 w = Returns RVoid w.
Proof.
  intros w. split; [reflexivity|].
  apply (destroy_discards_result 5 1 w w EBUSY). reflexivity.
Defined.

(** With no allocation left the native creation fails with [EAGAIN]. *)
Lemma thrd_create_status_witness :
  let w := Posix.boot 0 false in
  pthread_create 100 0 7 8 1 w = Returns Posix.EAGAIN w ∧
  thrd_create 100 7 8 1 w = Returns thrd_error w.
Proof.
  intros w. split; [reflexivity|].
  apply (proj1 thrd_create_status linux_lp64 _ _ 100 7 8 1 Posix.EAGAIN w w);
    [reflexivity | discriminate].
Defined.

(** Thread 1 joins the terminated thread 2 and asks for its exit value. *)
Lemma thrd_join_result_witness :
  let w := Scenario.spawned
             {[1 := Posix.Running false; 2 := Posix.Zombie 9]} in
  let w' := Scenario.spawned {[1 := Posix.Running false]} in
  pthread_join 2 1 w = Returns (0, 9) w' ∧
  thrd_join 2 200 1 w
  = Returns thrd_success (World (<[200 := 9]> (mem w')) (sys w')).
Proof.
  intros w w'.
  assert (Hp : pthread_join 2 1 w = Returns (0, 9) w')
    by (vm_compute; reflexivity).
  split; [exact Hp|].
  apply (proj1 thrd_join_result linux_lp64 _ _ 2 200 1 0 9 w w' Hp);
    [reflexivity | discriminate].
Defined.

(** [mtx_init] returns a status. *)
Lemma status_results_witness :
  let w := Posix.boot 0 false in
  let w' := World ∅ (Posix.with_mutexes (insert 5 None) (sys w)) in
  exec (MtxInit 5 mtx_recursive) 1 w = Returns (RInt thrd_success) w' ∧
  ∃ s, RInt thrd_success = RInt s ∧ is_status s.
Proof.
  intros w w'. split; [reflexivity|].
  apply (status_results (MtxInit 5 mtx_recursive) 1 w w' (RInt thrd_success));
    reflexivity.
Defined.

(** A recursive mutex is asked for; the mutex made is the plain one. *)
Lemma mtx_init_ignores_mode_witness :
  let w := Posix.boot 0 false in
  let w' := World ∅ (Posix.with_mutexes (insert 5 None) (sys w)) in
  pthread_mutex_init 5 NULL 1 w = Returns 0 w' ∧
  mtx_init 5 mtx_recursive 1 w = mtx_init 5 mtx_plain 1 w ∧
  mtx_init 5 mtx_recursive 1 w = Returns thrd_success w'.
Proof.
  intros w w'. split; [reflexivity|]. split.
  - exact (proj1 mtx_init_ignores_mode linux_lp64 _ _ 5 mtx_recursive 1 w).
  - apply (proj1 (proj2 mtx_init_ignores_mode) linux_lp64 _ _
             5 mtx_recursive 1 0 w w').
    reflexivity.
Defined.

(** C6 as stated fails: [call_once] returns, and what it returns is not a
    status (the function is declared [void]). *)
Lemma status_results_counterexample :
  ¬ (∀ (o : op) (self : Z) (w w' : world Posix.state) (r : retval),
       exec o self w = Returns r w' → ∃ s, r = RInt s ∧ is_status s).
Proof.
  intros Hall.
  destruct (Hall (CallOnce 10 20) 1 (Posix.boot 0 false) _ RVoid eq_refl)
    as (s & Hs & _).
  discriminate Hs.
Qed.



(** Thread 1 unlocks the mutex that thread 2 holds: [EPERM]. *)
Lemma zero_test_wrappers_witness :
  let w := Scenario.held 2 false in
  pthread_mutex_unlock 5 1 w = Returns Posix.EPERM w ∧
  mtx_unlock 5 1 w = Returns thrd_error w.
Proof.
  intros w. split; [reflexivity|].
  apply (zero_test_wrappers 5 0 1 Posix.EPERM w w). reflexivity.
Defined.


(** Thread 1 joins thread 2, which has ended with a pointer wider than
    an [int]: the low 32 bits are stored. *)
Lemma thrd_join_stores_int_witness :
  let w := Scenario.spawned
             {[1 := Posix.Running false; 2 := Posix.Zombie (2 ^ 32 + 5)]} in
  let w' := Scenario.spawned {[1 := Posix.Running false]} in
  pthread_join 2 1 w = Returns (0, 2 ^ 32 + 5) w' ∧
  ∃ v, thrd_join 2 200 1 w
       = Returns thrd_success (World (<[200 := v]> (mem w')) (sys w')) ∧
       in_int v ∧ (v - (2 ^ 32 + 5)) mod 2 ^ 32 = 0.
Proof.
  intros w w'.
  assert (Hp : pthread_join 2 1 w = Returns (0, 2 ^ 32 + 5) w')
    by (vm_compute; reflexivity).
  split; [exact Hp|].
  apply (thrd_join_stores_int 2 200 1 0 (2 ^ 32 + 5) w w' Hp). discriminate.
Defined.

(** [thrd_exit(-5)] hands [pthread_exit] the pointer [2 ^ 64 - 5]. *)
Lemma thrd_exit_pointer_witness :
  let w := Posix.boot 0 false in
  after (thrd_exit (-5) 1 w) = after (pthread_exit (2 ^ 64 - 5) 1 w) ∧
  0 <= 2 ^ 64 - 5 < 2 ^ 64 ∧
  (2 ^ 64 - 5 = NULL ↔ -5 = 0).
Proof.
  intros w.
  assert (H32 : 32 <= 64) by lia.
  assert (Hint : in_int (-5)) by (unfold in_int; lia).
  exact (thrd_exit_pointer (-5) 1 w H32 H32 Hint).
Defined.

(** Thread 1 tries the mutex that thread 2 holds and reads the status. *)
Lemma status_tells_witness :
  let w := Scenario.held 2 false in
  exec (MtxTrylock 5) 1 w = Returns (RInt thrd_busy) w ∧
  ∃ rc, pthread_mutex_trylock 5 1 w = Returns rc w ∧
        busy_reading EBUSY thrd_busy rc.
Proof.
  intros w. split; [reflexivity|].
  apply (status_tells (MtxTrylock 5) 1 thrd_busy w w). reflexivity.
Defined.

(** The busy status there comes from [mtx_trylock]. *)
Lemma never_nomem_witness :
  let w := Scenario.held 2 false in
  exec (MtxTrylock 5) 1 w = Returns (RInt thrd_busy) w ∧
  thrd_busy ≠ thrd_nomem ∧
  (thrd_busy = thrd_busy →
   (∃ mtx, MtxTrylock 5 = MtxLock mtx) ∨
   (∃ mtx, MtxTrylock 5 = MtxTrylock mtx)).
Proof.
  intros w. split; [reflexivity|].
  apply (never_nomem (MtxTrylock 5) 1 thrd_busy w w); reflexivity.
Defined.

(** Thread 1 yields: [sched_yield] returns 0, [thrd_yield] nothing. *)
Lemma yield_once_discard_result_witness :
  let w := Posix.boot 0 false in
  sched_yield 1 w = Returns 0 w ∧
  thrd_yield 1 w = Returns tt w ∧
  exec ThrdYield 1 w = Returns RVoid w.
Proof.
  intros w. split; [reflexivity|].
  apply (yield_once_discard_result 0 0 1 0 w w). reflexivity.
Defined.


End Linux.
